(** * A shallow embedding of the console debug logger

    Sources embedded here (directory [C++/logger]):
    - [project_definitions.h]: the enumerations [EPrintColor], [ELogCategory],
      [ELogCategoryState], the macro [UNIX_COLOR_END_TAG] and [Color_To_Ansi];
    - [log_categories.h]: the class [LogManager];
    - [singleton.h]: the class template [Singleton], instantiated at
      [LogManager];
    - [debug_logger_component.h]: the six overloads of [Debug_Log], as they
      are compiled when [DEBUG_MODE] is defined (as [main.cpp] defines it).

    Scoped enumerations with a fixed underlying type are modelled by their
    underlying integers, so that values outside the enumerators exist, as
    they do in C++ after a [static_cast].  [std::map] is a [gmap]; the
    standard output stream is the string of characters written so far. *)

From Stdlib Require Import ZArith String Ascii List Lia.
From Stdlib Require Import DecimalString.
From stdpp Require Import gmap.
Import ListNotations.

Local Open Scope Z_scope.
Local Open Scope string_scope.

(** ** project_definitions.h *)

(** The escape character, written [\033] in the source. *)
Definition ESC : ascii := "027"%char.

(** The text [\033] followed by [body]. *)
Definition esc (body : string) : string := String ESC body.

Definition UNIX_COLOR_END_TAG : string := esc "[m".

(** [enum class EPrintColor : unsigned char]; a value is an integer in
    [0, 256). *)
Module EPrintColor.
Definition t : Type := Z.
Definition Red : t := 0.
Definition Green : t := 1.
Definition Blue : t := 2.
Definition White : t := 3.
Definition Black : t := 4.
Definition Magenta : t := 5.
Definition Cyan : t := 6.
Definition Yellow : t := 7.
Definition Gray : t := 8.
Definition LightRed : t := 9.
Definition LightGreen : t := 10.
Definition LightBlue : t := 11.
Definition LightWhite : t := 12.
Definition LightMagenta : t := 13.
Definition LightCyan : t := 14.
Definition LightYellow : t := 15.

(** The sixteen enumerators, in declaration order. *)
Definition enumerators : list t :=
  [Red; Green; Blue; White; Black; Magenta; Cyan; Yellow; Gray; LightRed;
   LightGreen; LightBlue; LightWhite; LightMagenta; LightCyan; LightYellow].
End EPrintColor.

(** [enum class ELogCategory : int]. *)
Module ELogCategory.
Definition t : Type := Z.
Definition Default : t := 0.
Definition Error : t := 1.
Definition Core : t := 2.
Definition Editor : t := 3.
Definition Component : t := 4.
Definition Threads : t := 5.
(** Should be last: the number of categories. *)
Definition AutoCount : t := 6.

(** The categories proper, the sentinel left out. *)
Definition categories : list t :=
  [Default; Error; Core; Editor; Component; Threads].
End ELogCategory.

(** [enum class ELogCategoryState : int]. *)
Module ELogCategoryState.
Inductive t : Type := Enabled | Disabled | AutoCount.

(** [operator==] on the enumeration. *)
Definition eqb (a b : t) : bool :=
  match a, b with
  | Enabled, Enabled | Disabled, Disabled | AutoCount, AutoCount => true
  | _, _ => false
  end.
End ELogCategoryState.

(** [Color_To_Ansi]: the [switch] over the sixteen enumerators, with its
    [default] branch. *)
Definition Color_To_Ansi (color : EPrintColor.t) : string :=
  match color with
  | 0 => esc "[1;31m"   (* Red *)
  | 1 => esc "[1;32m"   (* Green *)
  | 2 => esc "[1;34m"   (* Blue *)
  | 3 => esc "[1;37m"   (* White *)
  | 4 => esc "[1;30m"   (* Black *)
  | 5 => esc "[1;35m"   (* Magenta *)
  | 6 => esc "[1;36m"   (* Cyan *)
  | 7 => esc "[1;33m"   (* Yellow *)
  | 8 => esc "[1;90m"   (* Gray *)
  | 9 => esc "[1;91m"   (* LightRed *)
  | 10 => esc "[1;92m"  (* LightGreen *)
  | 11 => esc "[1;94m"  (* LightBlue *)
  | 12 => esc "[1;97m"  (* LightWhite *)
  | 13 => esc "[1;95m"  (* LightMagenta *)
  | 14 => esc "[1;96m"  (* LightCyan *)
  | 15 => esc "[1;94m"  (* LightYellow *)
  | _ => esc "[1;37m"   (* return White by default *)
  end.

(** ** log_categories.h *)

(** A call either returns a value or throws [std::out_of_range]
    ([std::map::at] on a missing key). *)
Inductive Result (A : Type) : Type :=
| Ok (a : A)
| out_of_range.
Arguments Ok {A} a.
Arguments out_of_range {A}.

(** The only data member of [LogManager]. *)
Record LogManager : Type := mkLogManager {
  logCategoryStates : gmap Z ELogCategoryState.t
}.

(** The constructor's loop
    [for (int i = 0; i < AutoCount; ++i) logCategoryStates[i] = Enabled],
    with [remaining] iterations left and the loop variable at [i]. *)
Fixpoint ctor_loop (remaining : nat) (i : Z)
    (states : gmap Z ELogCategoryState.t) : gmap Z ELogCategoryState.t :=
  match remaining with
  | O => states
  | S remaining' =>
      ctor_loop remaining' (i + 1) (<[i := ELogCategoryState.Enabled]> states)
  end.

(** [LogManager::LogManager()]. *)
Definition LogManager_ctor : LogManager :=
  mkLogManager (ctor_loop (Z.to_nat (ELogCategory.AutoCount - 0)) 0 ∅).

(** [operator[]] followed by an assignment: the entry is created when it is
    missing and overwritten when it is there. *)
Definition EnableCategory (category : ELogCategory.t) (lm : LogManager)
    : LogManager :=
  mkLogManager (<[category := ELogCategoryState.Enabled]> (logCategoryStates lm)).

Definition DisableCategory (category : ELogCategory.t) (lm : LogManager)
    : LogManager :=
  mkLogManager (<[category := ELogCategoryState.Disabled]> (logCategoryStates lm)).

(** [std::map::at]. *)
Definition at_ (states : gmap Z ELogCategoryState.t) (category : ELogCategory.t)
    : Result ELogCategoryState.t :=
  match states !! category with
  | Some s => Ok s
  | None => out_of_range
  end.

(** The two [const] queries. *)
Definition IsCategoryEnabled (lm : LogManager) (category : ELogCategory.t)
    : Result bool :=
  match at_ (logCategoryStates lm) category with
  | Ok s => Ok (ELogCategoryState.eqb s ELogCategoryState.Enabled)
  | out_of_range => out_of_range
  end.

Definition IsCategoryDisabled (lm : LogManager) (category : ELogCategory.t)
    : Result bool :=
  match at_ (logCategoryStates lm) category with
  | Ok s => Ok (ELogCategoryState.eqb s ELogCategoryState.Disabled)
  | out_of_range => out_of_range
  end.

(** A category is populated when the map has an entry for it. *)
Definition populated (lm : LogManager) (category : ELogCategory.t) : Prop :=
  is_Some (logCategoryStates lm !! category).

(** One mutating call on the registry. *)
Inductive RegistryOp : Type :=
| OpEnable (category : ELogCategory.t)
| OpDisable (category : ELogCategory.t).

Definition apply_op (op : RegistryOp) (lm : LogManager) : LogManager :=
  match op with
  | OpEnable c => EnableCategory c lm
  | OpDisable c => DisableCategory c lm
  end.

(** The registry after the calls [ops], made in list order. *)
Definition run_ops (ops : list RegistryOp) (lm : LogManager) : LogManager :=
  fold_left (fun acc op => apply_op op acc) ops lm.

(** The states reachable from construction. *)
Definition reachable (lm : LogManager) : Prop :=
  exists ops, lm = run_ops ops LogManager_ctor.

(** ** singleton.h, at [T := LogManager] *)

(** The process state the logger touches: the static pointer
    [Singleton<LogManager>::m_instance] together with the object it points
    to ([None] is [nullptr]), and the characters written to [std::cout]. *)
Record World : Type := mkWorld {
  m_instance : option LogManager;
  cout : string
}.

Definition set_m_instance (p : option LogManager) (w : World) : World :=
  mkWorld p (cout w).

Definition write (text : string) (w : World) : World :=
  mkWorld (m_instance w) (cout w ++ text).

(** The process at start-up: no instance, nothing written. *)
Definition initial_world : World := mkWorld None "".

(** [Singleton::GetInstance]: both null checks of the double-checked lock
    see the same pointer in a single thread.  The result is the world after
    the call; the returned pointer is its [m_instance]. *)
Definition GetInstance (w : World) : World :=
  match m_instance w with
  | Some _ => w
  | None => set_m_instance (Some LogManager_ctor) w
  end.

(** The object behind the pointer [GetInstance] returns. *)
Definition instance (w : World) : LogManager :=
  match m_instance (GetInstance w) with
  | Some lm => lm
  | None => LogManager_ctor
  end.

(** [LogManager::GetInstance()->EnableCategory(c)] and its sibling: the
    object is changed in place, behind the pointer. *)
Definition call_EnableCategory (c : ELogCategory.t) (w : World) : World :=
  set_m_instance (Some (EnableCategory c (instance w))) (GetInstance w).

Definition call_DisableCategory (c : ELogCategory.t) (w : World) : World :=
  set_m_instance (Some (DisableCategory c (instance w))) (GetInstance w).

(** [LogManager::GetInstance()->IsCategoryEnabled(c)] and its sibling, with
    the world they leave behind. *)
Definition call_IsCategoryEnabled (c : ELogCategory.t) (w : World)
    : Result bool * World :=
  (IsCategoryEnabled (instance w) c, GetInstance w).

Definition call_IsCategoryDisabled (c : ELogCategory.t) (w : World)
    : Result bool * World :=
  (IsCategoryDisabled (instance w) c, GetInstance w).

(** How a call that may recurse ends: it returns, it has undefined
    behaviour, or the model ran out of [fuel] before it returned. *)
Inductive Outcome (A : Type) : Type :=
| Returns (a : A)
| Undefined
| OutOfFuel.
Arguments Returns {A} a.
Arguments Undefined {A}.
Arguments OutOfFuel {A}.

(** The delete-expression [delete m_instance].  On a null pointer it does
    nothing.  Otherwise it runs the destructor of [LogManager]: the implicit
    destructor destroys the member [logCategoryStates] and then runs the
    base class destructor [Singleton<LogManager>::~Singleton()], whose body
    is again [delete m_instance; m_instance = nullptr;].  [lifetime_ended]
    tells whether the destructor of the pointee has been entered before:
    entering it a second time is undefined behaviour. *)
Fixpoint delete_m_instance (fuel : nat) (lifetime_ended : bool) (w : World)
    : Outcome World :=
  match fuel with
  | O => OutOfFuel
  | S fuel' =>
      match m_instance w with
      | None => Returns w
      | Some _ =>
          if lifetime_ended then Undefined
          else
            match delete_m_instance fuel' true w with
            | Returns w' => Returns (set_m_instance None w')
            | Undefined => Undefined
            | OutOfFuel => OutOfFuel
            end
      end
  end.

(** [Singleton::DestroyInstance]. *)
Definition DestroyInstance (fuel : nat) (w : World) : Outcome World :=
  match m_instance w with
  | Some _ =>
      match delete_m_instance fuel false w with
      | Returns w' => Returns (set_m_instance None w')
      | Undefined => Undefined
      | OutOfFuel => OutOfFuel
      end
  | None => Returns w
  end.

(** ** debug_logger_component.h, with [DEBUG_MODE] defined *)

(** A type that can be inserted into [std::cout] with [operator<<]:
    [insert] is the text a stream with default formatting writes. *)
Class Streamable (A : Type) : Type := insert : A -> string.

(** String literals and [std::string]. *)
#[global] Instance Streamable_string : Streamable string := fun s => s.
(** [char]. *)
#[global] Instance Streamable_char : Streamable ascii := fun c => String c "".
(** [int]: decimal digits, with a sign when negative. *)
#[global] Instance Streamable_int : Streamable Z :=
  fun z => NilZero.string_of_int (Z.to_int z).
(** [bool], without [std::boolalpha]. *)
#[global] Instance Streamable_bool : Streamable bool :=
  fun b => if b then "1" else "0".

(** One element of the parameter pack [Args&&... args]. *)
Record Arg : Type := mkArg {
  arg_type : Type;
  arg_streamable : Streamable arg_type;
  arg_value : arg_type
}.
Arguments mkArg {arg_type arg_streamable} arg_value.

(** The text of one argument. *)
Definition arg_text (a : Arg) : string :=
  @insert (arg_type a) (arg_streamable a) (arg_value a).

(** The fold expression [([&] { std::cout << args; } (), ...)]: a fold over
    the comma operator, the arguments taken from left to right. *)
Definition write_args (args : list Arg) (w : World) : World :=
  fold_left (fun acc a => write (arg_text a) acc) args w.

(** [std::endl]: a newline (and a flush, which writes no character). *)
Definition endl : string := String "010"%char "".

(** What [std::ctime] returns for the clock reading taken at a call: the
    calendar text ([Www Mmm dd hh:mm:ss yyyy]) and a newline. *)
Definition ctime (calendar : string) : string := calendar ++ endl.

(** How a [noexcept] function ends: it returns, or an exception reached
    its boundary and [std::terminate] was called. *)
Inductive Completion : Type :=
| Normal (w : World)
| Terminate.

(** The guard shared by the six overloads,
    [if (logManager->IsCategoryDisabled(category)) return;] followed by
    [body]. *)
Definition guarded (category : ELogCategory.t) (body : World -> World)
    (w : World) : Completion :=
  let w := GetInstance w in
  match IsCategoryDisabled (instance w) category with
  | out_of_range => Terminate
  | Ok true => Normal w
  | Ok false => Normal (body w)
  end.

(** The optional time stamp of the two overloads with [bShowTime]. *)
Definition show_time (bShowTime : bool) (calendar : string) (w : World)
    : World :=
  if bShowTime then write (ctime calendar) w else w.

(** The tail of the two uncoloured overloads. *)
Definition plain_line (args : list Arg) (w : World) : World :=
  write endl (write_args args (write ">>> " w)).

(** The tail of the four coloured overloads. *)
Definition colored_line (color : EPrintColor.t) (args : list Arg) (w : World)
    : World :=
  let color_code := Color_To_Ansi color in
  write endl (write UNIX_COLOR_END_TAG
    (write_args args (write color_code (write ">>> " w)))).

(** [Debug_Log(Args&&... args)] *)
Definition Debug_Log (args : list Arg) (w : World) : Completion :=
  guarded ELogCategory.Default (plain_line args) w.

(** [Debug_Log(ELogCategory category, Args&&... args)] *)
Definition Debug_Log_category (category : ELogCategory.t) (args : list Arg)
    (w : World) : Completion :=
  guarded category (plain_line args) w.

(** [Debug_Log(const EPrintColor color, Args&&... args)] *)
Definition Debug_Log_color (color : EPrintColor.t) (args : list Arg)
    (w : World) : Completion :=
  guarded ELogCategory.Default (colored_line color args) w.

(** [Debug_Log(const ELogCategory category, const EPrintColor color,
    Args&&... args)] *)
Definition Debug_Log_category_color (category : ELogCategory.t)
    (color : EPrintColor.t) (args : list Arg) (w : World) : Completion :=
  guarded category (colored_line color args) w.

(** [Debug_Log(const EPrintColor color, const bool bShowTime,
    Args&&... args)]; [calendar] is the clock reading at the call. *)
Definition Debug_Log_color_time (calendar : string) (color : EPrintColor.t)
    (bShowTime : bool) (args : list Arg) (w : World) : Completion :=
  guarded ELogCategory.Default
    (fun w => colored_line color args (show_time bShowTime calendar w)) w.

(** [Debug_Log(const ELogCategory category, const EPrintColor color,
    const bool bShowTime, Args&&... args)] *)
Definition Debug_Log_category_color_time (calendar : string)
    (category : ELogCategory.t) (color : EPrintColor.t) (bShowTime : bool)
    (args : list Arg) (w : World) : Completion :=
  guarded category
    (fun w => colored_line color args (show_time bShowTime calendar w)) w.

(** The overload a call resolves to, with the leading arguments that
    overload names. *)
Inductive Overload : Type :=
| Plain
| WithCategory (category : ELogCategory.t)
| WithColor (color : EPrintColor.t)
| WithCategoryColor (category : ELogCategory.t) (color : EPrintColor.t)
| WithColorTime (color : EPrintColor.t) (bShowTime : bool)
| WithCategoryColorTime (category : ELogCategory.t) (color : EPrintColor.t)
    (bShowTime : bool).

(** A call of [Debug_Log], dispatched to its overload. *)
Definition Debug_Log_call (calendar : string) (o : Overload)
    (args : list Arg) (w : World) : Completion :=
  match o with
  | Plain => Debug_Log args w
  | WithCategory category => Debug_Log_category category args w
  | WithColor color => Debug_Log_color color args w
  | WithCategoryColor category color =>
      Debug_Log_category_color category color args w
  | WithColorTime color bShowTime =>
      Debug_Log_color_time calendar color bShowTime args w
  | WithCategoryColorTime category color bShowTime =>
      Debug_Log_category_color_time calendar category color bShowTime args w
  end.

(** The category whose state gates a call. *)
Definition effective_category (o : Overload) : ELogCategory.t :=
  match o with
  | Plain | WithColor _ | WithColorTime _ _ => ELogCategory.Default
  | WithCategory c | WithCategoryColor c _ | WithCategoryColorTime c _ _ => c
  end.

(** The colour a call specifies, if any. *)
Definition specified_color (o : Overload) : option EPrintColor.t :=
  match o with
  | Plain | WithCategory _ => None
  | WithColor c | WithCategoryColor _ c | WithColorTime c _
  | WithCategoryColorTime _ c _ => Some c
  end.

(** The [bShowTime] flag a call passes, if its overload takes one. *)
Definition specified_time (o : Overload) : option bool :=
  match o with
  | WithColorTime _ b | WithCategoryColorTime _ _ b => Some b
  | _ => None
  end.

(** The state the registry holds for a category when a call looks it up. *)
Definition category_state (w : World) (c : ELogCategory.t)
    : option ELogCategoryState.t :=
  logCategoryStates (instance w) !! c.

(** The concatenation of the argument texts, in call order. *)
Definition args_text (args : list Arg) : string :=
  fold_right (fun a acc => arg_text a ++ acc) "" args.

(** [occurs c s]: the character [c] occurs in [s]. *)
Fixpoint occurs (c : ascii) (s : string) : bool :=
  match s with
  | EmptyString => false
  | String c' s' => if Ascii.eqb c c' then true else occurs c s'
  end.

(** [is_prefix p s]: [s] starts with [p]. *)
Definition is_prefix (p s : string) : Prop := exists rest, s = p ++ rest.

(** The escape sequences as the interface description lists them, by
    enumerator: the table the translation is compared with. *)
Definition documented_sequences : list (EPrintColor.t * string) :=
  [(EPrintColor.Red, esc "[1;31m"); (EPrintColor.Green, esc "[1;32m");
   (EPrintColor.Blue, esc "[1;34m"); (EPrintColor.White, esc "[1;37m");
   (EPrintColor.Black, esc "[1;30m"); (EPrintColor.Magenta, esc "[1;35m");
   (EPrintColor.Cyan, esc "[1;36m"); (EPrintColor.Yellow, esc "[1;33m");
   (EPrintColor.Gray, esc "[1;90m"); (EPrintColor.LightRed, esc "[1;91m");
   (EPrintColor.LightGreen, esc "[1;92m"); (EPrintColor.LightBlue, esc "[1;94m");
   (EPrintColor.LightWhite, esc "[1;97m");
   (EPrintColor.LightMagenta, esc "[1;95m");
   (EPrintColor.LightCyan, esc "[1;96m");
   (EPrintColor.LightYellow, esc "[1;94m")].

(** The sequence the table documents for a value, if it documents one. *)
Definition documented (color : EPrintColor.t) : option string :=
  snd <$> find (fun entry => Z.eqb (fst entry) color) documented_sequences.

(** No stored state is the third enumerator of [ELogCategoryState]. *)
Definition two_valued (lm : LogManager) : Prop :=
  forall c s, logCategoryStates lm !! c = Some s ->
    s = ELogCategoryState.Enabled \/ s = ELogCategoryState.Disabled.

(** [returned o]: the call came back to its caller. *)
Definition returned {A : Type} (o : Outcome A) : bool :=
  match o with
  | Returns _ => true
  | Undefined | OutOfFuel => false
  end.

(** [contains sub s]: [sub] occurs in [s] as a block of consecutive
    characters. *)
Fixpoint contains (sub s : string) : bool :=
  if String.prefix sub s then true
  else match s with
       | EmptyString => false
       | String _ s' => contains sub s'
       end.

(** The two lines of the output format: the optional time stamp line and
    the message line, as the interface description gives them. *)
Definition timestamp_line (calendar : string) (o : Overload) : string :=
  match specified_time o with
  | Some true => ctime calendar
  | Some false | None => ""
  end.

Definition message_line (o : Overload) (args : list Arg) : string :=
  match specified_color o with
  | Some color =>
      ">>> " ++ Color_To_Ansi color ++ args_text args
        ++ UNIX_COLOR_END_TAG ++ endl
  | None => ">>> " ++ args_text args ++ endl
  end.


(** ** Further definitions: the second accessor and sequences of calls *)

(** [Singleton::GetRef]: the same double-checked construction as
    [GetInstance]; the reference it returns is to the object behind
    [m_instance] in the world after the call. *)
Definition GetRef (w : World) : World :=
  match m_instance w with
  | Some _ => w
  | None => set_m_instance (Some LogManager_ctor) w
  end.

(** One access to the singleton, through either accessor. *)
Inductive Access : Type :=
| ViaGetInstance
| ViaGetRef.

Definition access (a : Access) (w : World) : World :=
  match a with
  | ViaGetInstance => GetInstance w
  | ViaGetRef => GetRef w
  end.

(** The world after the accesses [accesses], made in list order. *)
Definition run_accesses (accesses : list Access) (w : World) : World :=
  fold_left (fun acc a => access a acc) accesses w.

(** The category a mutating call names and the state it stores. *)
Definition op_category (op : RegistryOp) : ELogCategory.t :=
  match op with
  | OpEnable c | OpDisable c => c
  end.

Definition op_state (op : RegistryOp) : ELogCategoryState.t :=
  match op with
  | OpEnable _ => ELogCategoryState.Enabled
  | OpDisable _ => ELogCategoryState.Disabled
  end.

(** Scanning the calls [ops] in order: the state the last call on [c]
    stored, or [current] when no call names [c]. *)
Fixpoint last_state (c : ELogCategory.t) (ops : list RegistryOp)
    (current : option ELogCategoryState.t) : option ELogCategoryState.t :=
  match ops with
  | [] => current
  | op :: ops' =>
      last_state c ops'
        (if decide (op_category op = c) then Some (op_state op) else current)
  end.

(** Every overload is the guard on its effective category around one
    body. *)
Definition body_of (calendar : string) (o : Overload) (args : list Arg)
    : World -> World :=
  match o with
  | Plain | WithCategory _ => plain_line args
  | WithColor color | WithCategoryColor _ color => colored_line color args
  | WithColorTime color b | WithCategoryColorTime _ color b =>
      fun w => colored_line color args (show_time b calendar w)
  end.

(** One call of [Debug_Log] in a program: the clock reading at the call,
    the overload it resolves to, and its arguments. *)
Record LogCall : Type := mkLogCall {
  call_calendar : string;
  call_overload : Overload;
  call_args : list Arg
}.

(** A run of calls, one after the other; [std::terminate] in one of them
    ends the run. *)
Fixpoint run_logs (calls : list LogCall) (w : World) : Completion :=
  match calls with
  | [] => Normal w
  | call :: rest =>
      match Debug_Log_call (call_calendar call) (call_overload call)
              (call_args call) w with
      | Normal w' => run_logs rest w'
      | Terminate => Terminate
      end
  end.

(** The text the output format gives for one call under the registry of
    [w]: nothing when the effective category is disabled (or has no
    entry), else the time stamp line, if any, and the message line. *)
Definition line_written (w : World) (call : LogCall) : string :=
  match category_state w (effective_category (call_overload call)) with
  | Some ELogCategoryState.Disabled | None => ""
  | Some _ =>
      timestamp_line (call_calendar call) (call_overload call)
        ++ message_line (call_overload call) (call_args call)
  end.

Definition lines_written (w : World) (calls : list LogCall) : string :=
  fold_right (fun call acc => line_written w call ++ acc) "" calls.

(** * Properties *)

(** ** The registry *)

Section Registry.

Implicit Types (lm : LogManager) (c : ELogCategory.t).
Implicit Types (states : gmap Z ELogCategoryState.t).

(** What the constructor's loop leaves in the map: [Enabled] on the
    indices it ran over, the old entry elsewhere. *)
Lemma ctor_loop_lookup (n : nat) (i : Z) states c :
  ctor_loop n i states !! c =
    if decide (i <= c < i + Z.of_nat n)
    then Some ELogCategoryState.Enabled
    else states !! c.
Proof.
  revert i states; induction n as [|n IH]; intros i states; simpl ctor_loop.
  - case_decide; [lia | reflexivity].
  - rewrite IH. destruct (decide (c = i)) as [->|Hne].
    + repeat case_decide; try lia; try reflexivity.
      by rewrite lookup_insert_eq.
    + rewrite lookup_insert_ne by congruence.
      repeat case_decide; try lia; reflexivity.
Qed.

Lemma LogManager_ctor_lookup c :
  logCategoryStates LogManager_ctor !! c =
    if decide (0 <= c < ELogCategory.AutoCount)
    then Some ELogCategoryState.Enabled
    else None.
Proof.
  change (logCategoryStates LogManager_ctor) with
    (ctor_loop (Z.to_nat (ELogCategory.AutoCount - 0)) 0 ∅).
  rewrite ctor_loop_lookup, lookup_empty.
  unfold ELogCategory.AutoCount; repeat case_decide; try lia; reflexivity.
Qed.

Lemma IsCategoryEnabled_lookup lm c s :
  logCategoryStates lm !! c = Some s ->
  IsCategoryEnabled lm c =
    Ok (ELogCategoryState.eqb s ELogCategoryState.Enabled).
Proof. intros H. unfold IsCategoryEnabled, at_. by rewrite H. Qed.

Lemma IsCategoryDisabled_lookup lm c s :
  logCategoryStates lm !! c = Some s ->
  IsCategoryDisabled lm c =
    Ok (ELogCategoryState.eqb s ELogCategoryState.Disabled).
Proof. intros H. unfold IsCategoryDisabled, at_. by rewrite H. Qed.

Lemma IsCategoryEnabled_missing lm c :
  logCategoryStates lm !! c = None -> IsCategoryEnabled lm c = out_of_range.
Proof. intros H. unfold IsCategoryEnabled, at_. by rewrite H. Qed.

Lemma IsCategoryDisabled_missing lm c :
  logCategoryStates lm !! c = None -> IsCategoryDisabled lm c = out_of_range.
Proof. intros H. unfold IsCategoryDisabled, at_. by rewrite H. Qed.

Lemma EnableCategory_lookup lm c :
  logCategoryStates (EnableCategory c lm) !! c =
    Some ELogCategoryState.Enabled.
Proof. apply lookup_insert_eq. Qed.

Lemma DisableCategory_lookup lm c :
  logCategoryStates (DisableCategory c lm) !! c =
    Some ELogCategoryState.Disabled.
Proof. apply lookup_insert_eq. Qed.

Lemma EnableCategory_twice lm c :
  EnableCategory c (EnableCategory c lm) = EnableCategory c lm.
Proof. unfold EnableCategory; simpl. by rewrite insert_insert_eq. Qed.

Lemma DisableCategory_twice lm c :
  DisableCategory c (DisableCategory c lm) = DisableCategory c lm.
Proof. unfold DisableCategory; simpl. by rewrite insert_insert_eq. Qed.

Lemma two_valued_ctor : two_valued LogManager_ctor.
Proof.
  intros c s. rewrite LogManager_ctor_lookup.
  case_decide; [|discriminate]. intros [= <-]. by left.
Qed.

Lemma two_valued_apply_op op lm : two_valued lm -> two_valued (apply_op op lm).
Proof.
  intros Hlm c s. destruct op as [k|k]; simpl;
    (destruct (decide (k = c)) as [->|Hne];
     [rewrite lookup_insert_eq; intros [= <-]; auto
     |rewrite lookup_insert_ne by done; apply Hlm]).
Qed.

Lemma two_valued_run_ops ops lm : two_valued lm -> two_valued (run_ops ops lm).
Proof.
  revert lm; induction ops as [|op ops IH]; intros lm Hlm; [exact Hlm|].
  apply IH, two_valued_apply_op, Hlm.
Qed.

Lemma reachable_two_valued lm : reachable lm -> two_valued lm.
Proof. intros [ops ->]. apply two_valued_run_ops, two_valued_ctor. Qed.

End Registry.

(** ** Strings *)

Lemma append_nil_l (b : string) : "" ++ b = b.
Proof. reflexivity. Qed.

Lemma append_cons (x : ascii) (a b : string) :
  String x a ++ b = String x (a ++ b).
Proof. reflexivity. Qed.

Lemma append_assoc (a b c : string) : (a ++ b) ++ c = a ++ (b ++ c).
Proof.
  induction a as [|x a IH]; [reflexivity|].
  by rewrite !append_cons, IH.
Qed.

Lemma append_empty_r (a : string) : a ++ "" = a.
Proof.
  induction a as [|x a IH]; [reflexivity|]. by rewrite append_cons, IH.
Qed.

Lemma occurs_append (c : ascii) (a b : string) :
  occurs c (a ++ b) = occurs c a || occurs c b.
Proof.
  induction a as [|x a IH]; [reflexivity|].
  rewrite append_cons. simpl. destruct (Ascii.eqb c x); [reflexivity | exact IH].
Qed.

(** ** The singleton *)

Section SingletonFacts.

Implicit Types (w : World) (lm : LogManager).

Lemma GetInstance_existing w lm :
  m_instance w = Some lm -> GetInstance w = w /\ instance w = lm.
Proof.
  intros H. unfold instance, GetInstance. rewrite H. by rewrite H.
Qed.

Lemma GetInstance_null w :
  m_instance w = None ->
  m_instance (GetInstance w) = Some LogManager_ctor /\
  instance w = LogManager_ctor.
Proof. intros H. unfold instance, GetInstance. by rewrite H. Qed.

Lemma GetInstance_cout w : cout (GetInstance w) = cout w.
Proof. unfold GetInstance. by destruct (m_instance w). Qed.

Lemma GetInstance_instance w : m_instance (GetInstance w) = Some (instance w).
Proof.
  unfold instance, GetInstance.
  destruct (m_instance w) as [lm|] eqn:E; [by rewrite E | reflexivity].
Qed.

Lemma GetInstance_idem w : GetInstance (GetInstance w) = GetInstance w.
Proof.
  unfold GetInstance.
  destruct (m_instance w) as [lm|] eqn:E; [by rewrite E | reflexivity].
Qed.

Lemma instance_GetInstance w : instance (GetInstance w) = instance w.
Proof. unfold instance. by rewrite GetInstance_idem. Qed.

(** A category can be [Disabled] only in an instance that exists: a
    fresh one has every entry [Enabled]. *)
Lemma category_state_Disabled_exists w c :
  category_state w c = Some ELogCategoryState.Disabled ->
  exists lm, m_instance w = Some lm.
Proof.
  unfold category_state. destruct (m_instance w) as [lm|] eqn:E; [eauto|].
  destruct (GetInstance_null w E) as [_ ->].
  rewrite LogManager_ctor_lookup. case_decide; discriminate.
Qed.

(** Once the destructor has been entered, deleting the instance again is
    undefined, whatever the fuel. *)
Lemma delete_m_instance_ended fuel w lm :
  m_instance w = Some lm -> delete_m_instance (S fuel) true w = Undefined.
Proof. intros H. simpl. by rewrite H. Qed.

Lemma delete_m_instance_live fuel w lm :
  m_instance w = Some lm ->
  delete_m_instance (S (S fuel)) false w = Undefined.
Proof.
  intros H. change (delete_m_instance (S (S fuel)) false w) with
    (match m_instance w with
     | None => Returns w
     | Some _ =>
         match delete_m_instance (S fuel) true w with
         | Returns w' => Returns (set_m_instance None w')
         | Undefined => Undefined
         | OutOfFuel => OutOfFuel
         end
     end).
  rewrite H. by rewrite (delete_m_instance_ended fuel w lm H).
Qed.

(** [DestroyInstance] on an existing instance: undefined behaviour as
    soon as the model has fuel for the two nested destructor calls. *)
Lemma DestroyInstance_existing fuel w lm :
  m_instance w = Some lm -> DestroyInstance (S (S fuel)) w = Undefined.
Proof.
  intros H. unfold DestroyInstance. rewrite H.
  by rewrite (delete_m_instance_live fuel w lm H).
Qed.

Lemma DestroyInstance_never_returns fuel w lm w' :
  m_instance w = Some lm -> DestroyInstance fuel w <> Returns w'.
Proof.
  intros H. destruct fuel as [|[|fuel]].
  - unfold DestroyInstance. rewrite H. simpl. discriminate.
  - unfold DestroyInstance. rewrite H. simpl. rewrite H. simpl. discriminate.
  - rewrite (DestroyInstance_existing fuel w lm H). discriminate.
Qed.

(** Without an instance [DestroyInstance] does nothing. *)
Lemma DestroyInstance_null fuel w :
  m_instance w = None -> DestroyInstance fuel w = Returns w.
Proof. intros H. unfold DestroyInstance. by rewrite H. Qed.

End SingletonFacts.

(** ** The front end *)

Section FrontEnd.

Implicit Types (w : World) (args : list Arg) (o : Overload).

Lemma write_cout text w : cout (write text w) = cout w ++ text.
Proof. reflexivity. Qed.

Lemma write_m_instance text w : m_instance (write text w) = m_instance w.
Proof. reflexivity. Qed.

Lemma write_args_cout args w :
  cout (write_args args w) = cout w ++ args_text args.
Proof.
  revert w; induction args as [|a args IH]; intros w; simpl.
  - by rewrite append_empty_r.
  - unfold write_args in IH |- *. simpl. rewrite IH, write_cout.
    by rewrite append_assoc.
Qed.

Lemma write_args_m_instance args w :
  m_instance (write_args args w) = m_instance w.
Proof.
  revert w; induction args as [|a args IH]; intros w; [reflexivity|].
  unfold write_args in IH |- *. simpl. by rewrite IH.
Qed.

Lemma plain_line_cout args w :
  cout (plain_line args w) = cout w ++ (">>> " ++ args_text args ++ endl).
Proof.
  unfold plain_line. rewrite write_cout, write_args_cout, write_cout.
  by rewrite !append_assoc.
Qed.

Lemma colored_line_cout color args w :
  cout (colored_line color args w) =
    cout w ++ (">>> " ++ Color_To_Ansi color ++ args_text args
                 ++ UNIX_COLOR_END_TAG ++ endl).
Proof.
  unfold colored_line.
  rewrite !write_cout, write_args_cout, !write_cout.
  by rewrite !append_assoc.
Qed.

Lemma plain_line_m_instance args w :
  m_instance (plain_line args w) = m_instance w.
Proof. unfold plain_line. simpl. by rewrite write_args_m_instance. Qed.

Lemma colored_line_m_instance color args w :
  m_instance (colored_line color args w) = m_instance w.
Proof. unfold colored_line. simpl. by rewrite write_args_m_instance. Qed.

Lemma show_time_cout b calendar w :
  cout (show_time b calendar w) =
    cout w ++ (if b then ctime calendar else "").
Proof. destruct b; simpl; [reflexivity | by rewrite append_empty_r]. Qed.

(** The guard lets the body run on an enabled category. *)
Lemma guarded_enabled c body w :
  category_state w c = Some ELogCategoryState.Enabled ->
  guarded c body w = Normal (body (GetInstance w)).
Proof.
  intros H. unfold guarded. rewrite instance_GetInstance.
  by rewrite (IsCategoryDisabled_lookup _ _ _ H).
Qed.

(** The guard returns at once on a disabled category. *)
Lemma guarded_disabled c body w :
  category_state w c = Some ELogCategoryState.Disabled ->
  guarded c body w = Normal w.
Proof.
  intros H. destruct (category_state_Disabled_exists w c H) as [lm Hlm].
  unfold guarded. rewrite instance_GetInstance.
  rewrite (IsCategoryDisabled_lookup _ _ _ H). simpl.
  by destruct (GetInstance_existing w lm Hlm) as [-> _].
Qed.

(** A category without an entry ends the process. *)
Lemma guarded_missing c body w :
  category_state w c = None -> guarded c body w = Terminate.
Proof.
  intros H. unfold guarded. rewrite instance_GetInstance.
  by rewrite (IsCategoryDisabled_missing _ _ H).
Qed.

End FrontEnd.

Section Calls.

Implicit Types (w : World) (args : list Arg) (o : Overload).

(** What any call writes when its category is enabled: the time stamp
    line, if asked for, and the message line; the registry is left as it
    was. *)
Lemma Debug_Log_call_enabled calendar o args w :
  category_state w (effective_category o) = Some ELogCategoryState.Enabled ->
  exists w',
    Debug_Log_call calendar o args w = Normal w' /\
    m_instance w' = Some (instance w) /\
    cout w' = cout w ++ timestamp_line calendar o ++ message_line o args.
Proof.
  intros H. destruct o as [|c|col|c col|col b|c col b];
    simpl in H; simpl Debug_Log_call;
    unfold Debug_Log, Debug_Log_category, Debug_Log_color,
      Debug_Log_category_color, Debug_Log_color_time,
      Debug_Log_category_color_time;
    rewrite (guarded_enabled _ _ _ H); eexists; (split; [reflexivity|]);
    unfold timestamp_line, message_line; simpl specified_time;
    simpl specified_color.
  - rewrite plain_line_m_instance, plain_line_cout, GetInstance_cout.
    split; [apply GetInstance_instance | by rewrite append_nil_l].
  - rewrite plain_line_m_instance, plain_line_cout, GetInstance_cout.
    split; [apply GetInstance_instance | by rewrite append_nil_l].
  - rewrite colored_line_m_instance, colored_line_cout, GetInstance_cout.
    split; [apply GetInstance_instance | by rewrite append_nil_l].
  - rewrite colored_line_m_instance, colored_line_cout, GetInstance_cout.
    split; [apply GetInstance_instance | by rewrite append_nil_l].
  - rewrite colored_line_m_instance, colored_line_cout, show_time_cout,
      GetInstance_cout.
    split; [destruct b; apply GetInstance_instance|].
    destruct b; by rewrite !append_assoc.
  - rewrite colored_line_m_instance, colored_line_cout, show_time_cout,
      GetInstance_cout.
    split; [destruct b; apply GetInstance_instance|].
    destruct b; by rewrite !append_assoc.
Qed.

Lemma instance_call_EnableCategory c w :
  instance (call_EnableCategory c w) = EnableCategory c (instance w).
Proof. reflexivity. Qed.

Lemma instance_call_DisableCategory c w :
  instance (call_DisableCategory c w) = DisableCategory c (instance w).
Proof. reflexivity. Qed.

End Calls.

(** * Properties of the specification *)

(** C1. Whatever the overload and the arguments, a call whose effective
    category (the one passed, or [Default] when the overload takes none) is
    [Disabled] in the registry returns with the world as it found it: no
    character is written, whatever the colour and the time flag. *)
Theorem Debug_Log_disabled_silent
    (calendar : string) (o : Overload) (args : list Arg) (w : World) :
  category_state w (effective_category o) = Some ELogCategoryState.Disabled ->
  Debug_Log_call calendar o args w = Normal w.
Proof.
  intros H. destruct o; simpl in H |- *; by apply guarded_disabled.
Qed.

Lemma Debug_Log_disabled_silent_witness :
  let w := call_DisableCategory ELogCategory.Core initial_world in
  let o := WithCategoryColorTime ELogCategory.Core EPrintColor.Red true in
  category_state w (effective_category o) = Some ELogCategoryState.Disabled /\
  Debug_Log_call "Fri Oct 30 10:00:00 2026" o [mkArg "x"; mkArg 69] w
    = Normal w.
Proof.
  split; [vm_compute; reflexivity|].
  apply (Debug_Log_disabled_silent "Fri Oct 30 10:00:00 2026"
           (WithCategoryColorTime ELogCategory.Core EPrintColor.Red true)
           [mkArg "x"; mkArg 69]
           (call_DisableCategory ELogCategory.Core initial_world)).
  vm_compute; reflexivity.
Defined.

(** C2. Right after construction each of [Default], [Error], [Core],
    [Editor], [Component] and [Threads] is reported enabled and not
    disabled; the sentinel [AutoCount] has no entry; and the first
    [GetInstance] of a process yields exactly this object. *)
Theorem LogManager_ctor_all_enabled :
  Forall (fun c =>
            IsCategoryEnabled LogManager_ctor c = Ok true /\
            IsCategoryDisabled LogManager_ctor c = Ok false)
         ELogCategory.categories /\
  logCategoryStates LogManager_ctor !! ELogCategory.AutoCount = None /\
  dom (logCategoryStates LogManager_ctor)
    = (list_to_set ELogCategory.categories : gset Z) /\
  m_instance (GetInstance initial_world) = Some LogManager_ctor.
Proof.
  split; [|split; [|split]].
  - unfold ELogCategory.categories. repeat constructor;
      (rewrite (IsCategoryEnabled_lookup _ _ ELogCategoryState.Enabled)
       || rewrite (IsCategoryDisabled_lookup _ _ ELogCategoryState.Enabled));
      try reflexivity; rewrite LogManager_ctor_lookup; reflexivity.
  - rewrite LogManager_ctor_lookup. reflexivity.
  - apply set_eq. intros c. rewrite elem_of_dom, LogManager_ctor_lookup.
    unfold ELogCategory.categories, ELogCategory.AutoCount,
      ELogCategory.Default, ELogCategory.Error, ELogCategory.Core,
      ELogCategory.Editor, ELogCategory.Component, ELogCategory.Threads.
    rewrite elem_of_list_to_set, !elem_of_cons, elem_of_nil.
    case_decide as Hc.
    + split; [intros _ | eauto]. lia.
    + split; [intros [? [=]] | lia].
  - reflexivity.
Qed.

(** C3. For every category value [c] and every registry: after
    [DisableCategory(c)] the query [IsCategoryDisabled(c)] is true, after
    [EnableCategory(c)] the query [IsCategoryEnabled(c)] is true, and a
    second identical call changes nothing.  The same holds for the calls
    made through the singleton. *)
Theorem Enable_Disable_query_idempotent
    (c : ELogCategory.t) (lm : LogManager) (w : World) :
  IsCategoryDisabled (DisableCategory c lm) c = Ok true /\
  IsCategoryEnabled (EnableCategory c lm) c = Ok true /\
  EnableCategory c (EnableCategory c lm) = EnableCategory c lm /\
  DisableCategory c (DisableCategory c lm) = DisableCategory c lm /\
  fst (call_IsCategoryDisabled c (call_DisableCategory c w)) = Ok true /\
  fst (call_IsCategoryEnabled c (call_EnableCategory c w)) = Ok true /\
  call_EnableCategory c (call_EnableCategory c w) = call_EnableCategory c w /\
  call_DisableCategory c (call_DisableCategory c w) = call_DisableCategory c w.
Proof.
  repeat split.
  - by rewrite (IsCategoryDisabled_lookup _ _ _ (DisableCategory_lookup lm c)).
  - by rewrite (IsCategoryEnabled_lookup _ _ _ (EnableCategory_lookup lm c)).
  - apply EnableCategory_twice.
  - apply DisableCategory_twice.
  - unfold call_IsCategoryDisabled; cbn [fst].
    rewrite instance_call_DisableCategory.
    by rewrite (IsCategoryDisabled_lookup _ _ _ (DisableCategory_lookup _ c)).
  - unfold call_IsCategoryEnabled; cbn [fst].
    rewrite instance_call_EnableCategory.
    by rewrite (IsCategoryEnabled_lookup _ _ _ (EnableCategory_lookup _ c)).
  - unfold call_EnableCategory at 1.
    rewrite instance_call_EnableCategory, EnableCategory_twice.
    reflexivity.
  - unfold call_DisableCategory at 1.
    rewrite instance_call_DisableCategory, DisableCategory_twice.
    reflexivity.
Qed.

(** C4, as stated, fails: the bare overload on an enabled [Default]
    category, given one string argument that carries the escape sequence
    of red, writes that sequence to the output. *)
Lemma Debug_Log_plain_escape_counterexample :
  specified_color Plain = None /\
  category_state initial_world (effective_category Plain)
    = Some ELogCategoryState.Enabled /\
  exists w',
    Debug_Log_call "" Plain [mkArg (esc "[1;31mred")] initial_world
      = Normal w' /\
    cout w' = ">>> " ++ esc "[1;31mred" ++ endl /\
    contains (Color_To_Ansi EPrintColor.Red) (cout w') = true.
Proof.
  split; [reflexivity|]. split; [vm_compute; reflexivity|].
  eexists. split; [vm_compute; reflexivity|].
  split; vm_compute; reflexivity.
Qed.

(** C4, amended. A call of an overload without a colour whose effective
    category is enabled writes exactly [>>> ], the argument texts in call
    order with nothing between them, and one newline; the escape character
    occurs in what is written only where an argument text has it, so the
    call adds no escape sequence of its own. *)
Theorem Debug_Log_plain_output
    (calendar : string) (o : Overload) (args : list Arg) (w : World) :
  specified_color o = None ->
  category_state w (effective_category o) = Some ELogCategoryState.Enabled ->
  exists w' out,
    Debug_Log_call calendar o args w = Normal w' /\
    cout w' = cout w ++ out /\
    out = ">>> " ++ args_text args ++ endl /\
    occurs ESC out = occurs ESC (args_text args).
Proof.
  intros Hcol Hen.
  destruct (Debug_Log_call_enabled calendar o args w Hen) as (w' & Hcall & _ & Hout).
  exists w', (">>> " ++ args_text args ++ endl). split; [exact Hcall|].
  split; [|split; [reflexivity|]].
  - rewrite Hout. unfold timestamp_line, message_line. rewrite Hcol.
    destruct o; try discriminate; reflexivity.
  - rewrite !occurs_append. simpl. by rewrite orb_false_r.
Qed.

Lemma Debug_Log_plain_output_witness :
  let o := WithCategory ELogCategory.Editor in
  let args := [mkArg "This is a debug message with a number: "; mkArg 42] in
  specified_color o = None /\
  category_state initial_world (effective_category o)
    = Some ELogCategoryState.Enabled /\
  exists w' out,
    Debug_Log_call "" o args initial_world = Normal w' /\
    cout w' = cout initial_world ++ out /\
    out = ">>> " ++ args_text args ++ endl /\
    occurs ESC out = occurs ESC (args_text args).
Proof.
  split; [reflexivity|]. split; [vm_compute; reflexivity|].
  apply (Debug_Log_plain_output ""
           (WithCategory ELogCategory.Editor)
           [mkArg "This is a debug message with a number: "; mkArg 42]
           initial_world);
    [reflexivity | vm_compute; reflexivity].
Defined.

(** C5. A call that names a colour and whose effective category is enabled
    writes, after the time stamp line if one was asked for, the message
    line: [>>> ], at once the escape sequence [Color_To_Ansi] gives for that
    colour, the argument texts in call order, the reset sequence [\033[m],
    and a newline. *)
Theorem Debug_Log_colored_output
    (calendar : string) (o : Overload) (color : EPrintColor.t)
    (args : list Arg) (w : World) :
  specified_color o = Some color ->
  category_state w (effective_category o) = Some ELogCategoryState.Enabled ->
  exists w',
    Debug_Log_call calendar o args w = Normal w' /\
    cout w' = cout w ++ timestamp_line calendar o
                ++ (">>> " ++ Color_To_Ansi color ++ args_text args
                      ++ esc "[m" ++ endl) /\
    UNIX_COLOR_END_TAG = esc "[m".
Proof.
  intros Hcol Hen.
  destruct (Debug_Log_call_enabled calendar o args w Hen) as (w' & Hcall & _ & Hout).
  exists w'. split; [exact Hcall|]. split; [|reflexivity].
  rewrite Hout. unfold message_line. by rewrite Hcol.
Qed.

Lemma Debug_Log_colored_output_witness :
  let o := WithCategoryColor ELogCategory.Threads EPrintColor.Cyan in
  specified_color o = Some EPrintColor.Cyan /\
  category_state initial_world (effective_category o)
    = Some ELogCategoryState.Enabled /\
  exists w',
    Debug_Log_call "" o [mkArg "joined "; mkArg 4] initial_world
      = Normal w' /\
    cout w' = cout initial_world ++ timestamp_line "" o
                ++ (">>> " ++ Color_To_Ansi EPrintColor.Cyan
                      ++ args_text [mkArg "joined "; mkArg 4]
                      ++ esc "[m" ++ endl) /\
    UNIX_COLOR_END_TAG = esc "[m".
Proof.
  split; [reflexivity|]. split; [vm_compute; reflexivity|].
  apply (Debug_Log_colored_output ""
           (WithCategoryColor ELogCategory.Threads EPrintColor.Cyan)
           EPrintColor.Cyan [mkArg "joined "; mkArg 4] initial_world);
    [reflexivity | vm_compute; reflexivity].
Defined.

(** C6. When the effective category is enabled, an overload that takes
    [bShowTime] and is passed [true] writes the time stamp line (the text
    [std::ctime] gives for the clock reading, which ends in a newline) and
    then the message line, which starts with [>>> ]; passed [false], and in
    every overload without the flag, it writes the message line alone. *)
Theorem Debug_Log_timestamp
    (calendar : string) (o : Overload) (args : list Arg) (w : World) :
  category_state w (effective_category o) = Some ELogCategoryState.Enabled ->
  exists w' line,
    Debug_Log_call calendar o args w = Normal w' /\
    line = message_line o args /\
    is_prefix ">>> " line /\
    cout w' = cout w ++
      match specified_time o with
      | Some true => (calendar ++ endl) ++ line
      | Some false | None => line
      end.
Proof.
  intros Hen.
  destruct (Debug_Log_call_enabled calendar o args w Hen) as (w' & Hcall & _ & Hout).
  exists w', (message_line o args). split; [exact Hcall|].
  split; [reflexivity|]. split.
  - unfold message_line, is_prefix.
    destruct (specified_color o); eexists; reflexivity.
  - rewrite Hout. unfold timestamp_line.
    destruct (specified_time o) as [[|]|]; reflexivity.
Qed.

Lemma Debug_Log_timestamp_witness :
  let o := WithCategoryColorTime ELogCategory.Default EPrintColor.Red true in
  let args := [mkArg "Loading next level"; mkArg 69] in
  category_state initial_world (effective_category o)
    = Some ELogCategoryState.Enabled /\
  exists w' line,
    Debug_Log_call "Fri Oct 30 10:00:00 2026" o args initial_world
      = Normal w' /\
    line = message_line o args /\
    is_prefix ">>> " line /\
    cout w' = cout initial_world ++
      match specified_time o with
      | Some true => ("Fri Oct 30 10:00:00 2026" ++ endl) ++ line
      | Some false | None => line
      end.
Proof.
  split; [vm_compute; reflexivity|].
  apply (Debug_Log_timestamp "Fri Oct 30 10:00:00 2026"
           (WithCategoryColorTime ELogCategory.Default EPrintColor.Red true)
           [mkArg "Loading next level"; mkArg 69] initial_world).
  vm_compute; reflexivity.
Defined.

(** C7. [Color_To_Ansi] is defined on every value: each of the sixteen
    enumerators is sent to the sequence the table documents for it
    ([LightYellow] to [\033[1;94m], which is also the sequence of
    [LightBlue]), and every other value, whatever its number, to the
    sequence of [White], [\033[1;37m]. *)
Theorem Color_To_Ansi_total (color : EPrintColor.t) :
  Forall (fun entry => Color_To_Ansi (fst entry) = snd entry)
         documented_sequences /\
  map fst documented_sequences = EPrintColor.enumerators /\
  Color_To_Ansi EPrintColor.LightYellow = esc "[1;94m" /\
  Color_To_Ansi EPrintColor.LightBlue = esc "[1;94m" /\
  Color_To_Ansi color =
    match documented color with
    | Some sequence => sequence
    | None => esc "[1;37m"
    end /\
  (documented color = None <-> color ∉ EPrintColor.enumerators).
Proof.
  split; [repeat constructor|]. split; [reflexivity|].
  split; [reflexivity|]. split; [reflexivity|].
  assert (Hcases : (0 <= color <= 15) \/ color < 0 \/ 15 < color) by lia.
  destruct Hcases as [Hin | Hout].
  - assert (Hc : color = 0 \/ color = 1 \/ color = 2 \/ color = 3 \/
                 color = 4 \/ color = 5 \/ color = 6 \/ color = 7 \/
                 color = 8 \/ color = 9 \/ color = 10 \/ color = 11 \/
                 color = 12 \/ color = 13 \/ color = 14 \/ color = 15) by lia.
    repeat (destruct Hc as [-> | Hc]); try subst color;
      (split; [reflexivity|]);
      (split; [discriminate|]);
      intros Hnot; exfalso; apply Hnot; unfold EPrintColor.enumerators;
      rewrite !elem_of_cons; tauto.
  - assert (Hdoc : documented color = None).
    { destruct color as [|p|p]; [lia| |reflexivity].
      do 5 (try destruct p as [p|p|]); try reflexivity; lia. }
    rewrite Hdoc. split; [|split; [intros _ | reflexivity]].
    + destruct color as [|p|p]; [lia| |reflexivity].
      do 5 (try destruct p as [p|p|]); try reflexivity; lia.
    + unfold EPrintColor.enumerators. rewrite !elem_of_cons, elem_of_nil.
      unfold EPrintColor.Red, EPrintColor.Green, EPrintColor.Blue,
        EPrintColor.White, EPrintColor.Black, EPrintColor.Magenta,
        EPrintColor.Cyan, EPrintColor.Yellow, EPrintColor.Gray,
        EPrintColor.LightRed, EPrintColor.LightGreen, EPrintColor.LightBlue,
        EPrintColor.LightWhite, EPrintColor.LightMagenta,
        EPrintColor.LightCyan, EPrintColor.LightYellow.
      lia.
Qed.

Lemma Color_To_Ansi_total_witness :
  (200 ∉ EPrintColor.enumerators) /\ Color_To_Ansi 200 = esc "[1;37m".
Proof.
  destruct (Color_To_Ansi_total 200) as (_ & _ & _ & _ & Hseq & Hdoc).
  assert (Hnone : documented 200 = None) by reflexivity.
  split; [apply Hdoc, Hnone | rewrite Hseq, Hnone; reflexivity].
Defined.

(** C8. In every registry reachable from construction by calls of
    [EnableCategory] and [DisableCategory], and for every category that has
    an entry, [IsCategoryEnabled] and [IsCategoryDisabled] both return and
    give opposite answers; made through the singleton, either query leaves
    the world exactly as it was. *)
Theorem queries_complementary
    (lm : LogManager) (c : ELogCategory.t) (w : World) :
  reachable lm ->
  populated lm c ->
  m_instance w = Some lm ->
  exists b,
    IsCategoryEnabled lm c = Ok b /\
    IsCategoryDisabled lm c = Ok (negb b) /\
    call_IsCategoryEnabled c w = (Ok b, w) /\
    call_IsCategoryDisabled c w = (Ok (negb b), w).
Proof.
  intros Hreach [s Hs] Hw.
  destruct (GetInstance_existing w lm Hw) as [Hget Hinst].
  unfold call_IsCategoryEnabled, call_IsCategoryDisabled.
  rewrite Hget, Hinst.
  rewrite (IsCategoryEnabled_lookup lm c s Hs).
  rewrite (IsCategoryDisabled_lookup lm c s Hs).
  destruct (reachable_two_valued lm Hreach c s Hs) as [-> | ->].
  - exists true. repeat split.
  - exists false. repeat split.
Qed.

Lemma queries_complementary_witness :
  let lm := run_ops [OpDisable ELogCategory.Core; OpEnable 7;
                     OpDisable ELogCategory.Default; OpEnable ELogCategory.Core;
                     OpDisable 7]
                    LogManager_ctor in
  let w := mkWorld (Some lm) "" in
  reachable lm /\ populated lm 7 /\ m_instance w = Some lm /\
  exists b,
    IsCategoryEnabled lm 7 = Ok b /\
    IsCategoryDisabled lm 7 = Ok (negb b) /\
    call_IsCategoryEnabled 7 w = (Ok b, w) /\
    call_IsCategoryDisabled 7 w = (Ok (negb b), w).
Proof.
  split; [eexists; reflexivity|].
  split; [exists ELogCategoryState.Disabled; vm_compute; reflexivity|].
  split; [reflexivity|].
  apply (queries_complementary
           (run_ops [OpDisable ELogCategory.Core; OpEnable 7;
                     OpDisable ELogCategory.Default;
                     OpEnable ELogCategory.Core; OpDisable 7]
                    LogManager_ctor)
           7
           (mkWorld
              (Some (run_ops [OpDisable ELogCategory.Core; OpEnable 7;
                              OpDisable ELogCategory.Default;
                              OpEnable ELogCategory.Core; OpDisable 7]
                             LogManager_ctor)) "")).
  - eexists; reflexivity.
  - exists ELogCategoryState.Disabled; vm_compute; reflexivity.
  - reflexivity.
Defined.

(** C9 fails on the code. With an instance in place (here: constructed by
    the first access, with [Core] then disabled) [DestroyInstance] does not
    come back: the destructor it runs deletes [m_instance] again before the
    pointer is cleared, which is undefined behaviour.  No amount of fuel
    makes the call return, so no later [GetInstance] is reached. *)
Theorem DestroyInstance_with_instance_undefined (fuel : nat) :
  let w := call_DisableCategory ELogCategory.Core initial_world in
  category_state w ELogCategory.Core = Some ELogCategoryState.Disabled /\
  DestroyInstance (S (S fuel)) w = Undefined /\
  returned (DestroyInstance fuel w) = false.
Proof.
  set (lm := DisableCategory ELogCategory.Core LogManager_ctor).
  assert (Hw : m_instance (call_DisableCategory ELogCategory.Core initial_world)
               = Some lm) by reflexivity.
  split; [vm_compute; reflexivity|]. split.
  - exact (DestroyInstance_existing fuel _ lm Hw).
  - destruct (DestroyInstance fuel _) as [w'| |] eqn:E; try reflexivity.
    exfalso. exact (DestroyInstance_never_returns fuel _ lm w' Hw E).
Qed.

(** What a fresh construction gives, were the pointer null again: every
    category enabled, whatever was disabled before. *)
Lemma GetInstance_after_null (w : World) (c : ELogCategory.t) :
  m_instance w = None ->
  In c ELogCategory.categories ->
  category_state w c = Some ELogCategoryState.Enabled.
Proof.
  intros Hnull Hc. unfold category_state.
  destruct (GetInstance_null w Hnull) as [_ ->].
  rewrite LogManager_ctor_lookup.
  unfold ELogCategory.categories in Hc. simpl in Hc.
  unfold ELogCategory.AutoCount.
  case_decide as Hr; [reflexivity|].
  unfold ELogCategory.Default, ELogCategory.Error, ELogCategory.Core,
    ELogCategory.Editor, ELogCategory.Component, ELogCategory.Threads in Hc.
  lia.
Qed.

(** C10. For a category value without an entry (the sentinel [AutoCount],
    or any integer the constructor did not insert): both queries throw
    [std::out_of_range]; [EnableCategory] and [DisableCategory] return, and
    add exactly the entry for that value; after either, both queries
    return, with the answers of the state just stored. *)
Theorem unpopulated_category (lm : LogManager) (c : ELogCategory.t) :
  logCategoryStates lm !! c = None ->
  IsCategoryEnabled lm c = out_of_range /\
  IsCategoryDisabled lm c = out_of_range /\
  dom (logCategoryStates (EnableCategory c lm))
    = {[c]} ∪ dom (logCategoryStates lm) /\
  IsCategoryEnabled (EnableCategory c lm) c = Ok true /\
  IsCategoryDisabled (EnableCategory c lm) c = Ok false /\
  dom (logCategoryStates (DisableCategory c lm))
    = {[c]} ∪ dom (logCategoryStates lm) /\
  IsCategoryEnabled (DisableCategory c lm) c = Ok false /\
  IsCategoryDisabled (DisableCategory c lm) c = Ok true.
Proof.
  intros Hnone.
  split; [by apply IsCategoryEnabled_missing|].
  split; [by apply IsCategoryDisabled_missing|].
  split; [apply dom_insert_L|].
  split; [by rewrite (IsCategoryEnabled_lookup _ _ _ (EnableCategory_lookup lm c))|].
  split; [by rewrite (IsCategoryDisabled_lookup _ _ _ (EnableCategory_lookup lm c))|].
  split; [apply dom_insert_L|].
  split.
  - by rewrite (IsCategoryEnabled_lookup _ _ _ (DisableCategory_lookup lm c)).
  - by rewrite (IsCategoryDisabled_lookup _ _ _ (DisableCategory_lookup lm c)).
Qed.

Lemma unpopulated_category_witness :
  logCategoryStates LogManager_ctor !! ELogCategory.AutoCount = None /\
  IsCategoryEnabled LogManager_ctor ELogCategory.AutoCount = out_of_range /\
  IsCategoryDisabled LogManager_ctor ELogCategory.AutoCount = out_of_range /\
  IsCategoryEnabled
    (EnableCategory ELogCategory.AutoCount LogManager_ctor)
    ELogCategory.AutoCount = Ok true /\
  IsCategoryDisabled
    (DisableCategory ELogCategory.AutoCount LogManager_ctor)
    ELogCategory.AutoCount = Ok true.
Proof.
  assert (Hnone : logCategoryStates LogManager_ctor !! ELogCategory.AutoCount
                  = None) by (vm_compute; reflexivity).
  destruct (unpopulated_category LogManager_ctor ELogCategory.AutoCount Hnone)
    as (He & Hd & _ & Hee & _ & _ & _ & Hdd).
  repeat split; assumption.
Defined.

(** * Further properties of the code *)

(** ** The registry as a map *)

Section RegistryAlgebra.

Implicit Types (lm : LogManager) (c : ELogCategory.t).

Lemma EnableCategory_lookup_ne lm c c' :
  c <> c' ->
  logCategoryStates (EnableCategory c lm) !! c' = logCategoryStates lm !! c'.
Proof. intros H. by apply lookup_insert_ne. Qed.

Lemma DisableCategory_lookup_ne lm c c' :
  c <> c' ->
  logCategoryStates (DisableCategory c lm) !! c' = logCategoryStates lm !! c'.
Proof. intros H. by apply lookup_insert_ne. Qed.

Lemma query_lookup_ext lm lm' c :
  logCategoryStates lm !! c = logCategoryStates lm' !! c ->
  IsCategoryEnabled lm c = IsCategoryEnabled lm' c /\
  IsCategoryDisabled lm c = IsCategoryDisabled lm' c.
Proof.
  intros H. unfold IsCategoryEnabled, IsCategoryDisabled, at_. by rewrite H.
Qed.

Lemma apply_op_lookup op lm c :
  logCategoryStates (apply_op op lm) !! c =
    if decide (op_category op = c) then Some (op_state op)
    else logCategoryStates lm !! c.
Proof.
  destruct op as [k|k]; simpl; case_decide as Hk.
  - subst. apply lookup_insert_eq.
  - by apply lookup_insert_ne.
  - subst. apply lookup_insert_eq.
  - by apply lookup_insert_ne.
Qed.

Lemma apply_op_populated op lm c :
  populated lm c -> populated (apply_op op lm) c.
Proof.
  unfold populated. rewrite apply_op_lookup. case_decide; [eauto | done].
Qed.

Lemma run_ops_populated ops lm c :
  populated lm c -> populated (run_ops ops lm) c.
Proof.
  revert lm; induction ops as [|op ops IH]; intros lm H; [exact H|].
  apply IH, apply_op_populated, H.
Qed.

Lemma LogManager_ctor_populated c :
  In c ELogCategory.categories -> populated LogManager_ctor c.
Proof.
  intros Hc. unfold populated. rewrite LogManager_ctor_lookup.
  unfold ELogCategory.categories in Hc. simpl in Hc.
  unfold ELogCategory.Default, ELogCategory.Error, ELogCategory.Core,
    ELogCategory.Editor, ELogCategory.Component, ELogCategory.Threads in Hc.
  unfold ELogCategory.AutoCount. case_decide; [eauto | lia].
Qed.

End RegistryAlgebra.

(** X1. A call of [EnableCategory] or [DisableCategory] on one category
    changes the answer of neither query on any other category, whether
    that answer is a boolean or the exception. *)
Theorem mutators_frame
    (lm : LogManager) (c c' : ELogCategory.t) :
  c <> c' ->
  IsCategoryEnabled (EnableCategory c lm) c' = IsCategoryEnabled lm c' /\
  IsCategoryDisabled (EnableCategory c lm) c' = IsCategoryDisabled lm c' /\
  IsCategoryEnabled (DisableCategory c lm) c' = IsCategoryEnabled lm c' /\
  IsCategoryDisabled (DisableCategory c lm) c' = IsCategoryDisabled lm c'.
Proof.
  intros Hne.
  destruct (query_lookup_ext _ lm c' (EnableCategory_lookup_ne lm c c' Hne))
    as [He1 He2].
  destruct (query_lookup_ext _ lm c' (DisableCategory_lookup_ne lm c c' Hne))
    as [Hd1 Hd2].
  repeat split; assumption.
Qed.

Lemma mutators_frame_witness :
  ELogCategory.Core <> ELogCategory.AutoCount /\
  IsCategoryDisabled (DisableCategory ELogCategory.Core LogManager_ctor)
    ELogCategory.AutoCount = out_of_range /\
  IsCategoryEnabled (DisableCategory ELogCategory.Core LogManager_ctor)
    ELogCategory.Error = Ok true.
Proof.
  split; [discriminate|]. split.
  - destruct (mutators_frame LogManager_ctor ELogCategory.Core
                ELogCategory.AutoCount) as (_ & _ & _ & H);
      [discriminate|]. rewrite H. vm_compute; reflexivity.
  - destruct (mutators_frame LogManager_ctor ELogCategory.Core
                ELogCategory.Error) as (_ & _ & H & _);
      [discriminate|]. rewrite H. vm_compute; reflexivity.
Defined.

(** X2. On one category the later of two mutating calls decides: enabling
    after disabling is as enabling alone, and the other way round. *)
Theorem mutators_last_wins (lm : LogManager) (c : ELogCategory.t) :
  EnableCategory c (DisableCategory c lm) = EnableCategory c lm /\
  DisableCategory c (EnableCategory c lm) = DisableCategory c lm /\
  IsCategoryEnabled (EnableCategory c (DisableCategory c lm)) c = Ok true /\
  IsCategoryDisabled (DisableCategory c (EnableCategory c lm)) c = Ok true.
Proof.
  assert (H1 : EnableCategory c (DisableCategory c lm) = EnableCategory c lm).
  { unfold EnableCategory, DisableCategory; cbn [logCategoryStates].
    by rewrite insert_insert_eq. }
  assert (H2 : DisableCategory c (EnableCategory c lm) = DisableCategory c lm).
  { unfold EnableCategory, DisableCategory; cbn [logCategoryStates].
    by rewrite insert_insert_eq. }
  split; [exact H1|]. split; [exact H2|]. rewrite H1, H2. split.
  - by rewrite (IsCategoryEnabled_lookup _ _ _ (EnableCategory_lookup lm c)).
  - by rewrite (IsCategoryDisabled_lookup _ _ _ (DisableCategory_lookup lm c)).
Qed.

(** X3. Mutating calls on two different categories can be made in either
    order: the registry that results is the same. *)
Theorem mutators_commute
    (op1 op2 : RegistryOp) (lm : LogManager) :
  op_category op1 <> op_category op2 ->
  apply_op op1 (apply_op op2 lm) = apply_op op2 (apply_op op1 lm).
Proof.
  intros Hne.
  destruct op1 as [c1|c1], op2 as [c2|c2]; simpl in Hne;
    unfold apply_op, EnableCategory, DisableCategory;
    cbn [logCategoryStates]; f_equal; by apply insert_insert_ne.
Qed.

Lemma mutators_commute_witness :
  op_category (OpEnable ELogCategory.Error)
    <> op_category (OpDisable ELogCategory.Threads) /\
  EnableCategory ELogCategory.Error
    (DisableCategory ELogCategory.Threads LogManager_ctor)
  = DisableCategory ELogCategory.Threads
      (EnableCategory ELogCategory.Error LogManager_ctor).
Proof.
  split; [discriminate|].
  apply (mutators_commute (OpEnable ELogCategory.Error)
           (OpDisable ELogCategory.Threads) LogManager_ctor).
  discriminate.
Defined.

(** X4. After any sequence of mutating calls, the entry of a category is
    the state stored by the last call that names it, and the entry it had
    before (or none) when no call names it. *)
Theorem run_ops_lookup
    (ops : list RegistryOp) (lm : LogManager) (c : ELogCategory.t) :
  logCategoryStates (run_ops ops lm) !! c
    = last_state c ops (logCategoryStates lm !! c).
Proof.
  revert lm; induction ops as [|op ops IH]; intros lm; [reflexivity|].
  change (run_ops (op :: ops) lm) with (run_ops ops (apply_op op lm)).
  rewrite IH, apply_op_lookup. reflexivity.
Qed.

(** X5. In every registry reachable from construction the six categories
    keep their entries (no call removes one), so both queries return on
    them and never throw. *)
Theorem reachable_categories_answer
    (lm : LogManager) (c : ELogCategory.t) :
  reachable lm ->
  In c ELogCategory.categories ->
  populated lm c /\
  exists b,
    IsCategoryEnabled lm c = Ok b /\ IsCategoryDisabled lm c = Ok (negb b).
Proof.
  intros Hreach Hc.
  assert (Hpop : populated lm c).
  { destruct Hreach as [ops ->].
    apply run_ops_populated, LogManager_ctor_populated, Hc. }
  split; [exact Hpop|]. destruct Hpop as [s Hs].
  rewrite (IsCategoryEnabled_lookup lm c s Hs).
  rewrite (IsCategoryDisabled_lookup lm c s Hs).
  destruct (reachable_two_valued lm Hreach c s Hs) as [-> | ->];
    [exists true | exists false]; split; reflexivity.
Qed.

Lemma reachable_categories_answer_witness :
  let lm := run_ops [OpDisable ELogCategory.Editor; OpEnable 9;
                     OpDisable ELogCategory.Default]
                    LogManager_ctor in
  reachable lm /\ In ELogCategory.Editor ELogCategory.categories /\
  populated lm ELogCategory.Editor /\
  exists b,
    IsCategoryEnabled lm ELogCategory.Editor = Ok b /\
    IsCategoryDisabled lm ELogCategory.Editor = Ok (negb b).
Proof.
  split; [eexists; reflexivity|].
  split; [simpl; tauto|].
  apply (reachable_categories_answer
           (run_ops [OpDisable ELogCategory.Editor; OpEnable 9;
                     OpDisable ELogCategory.Default]
                    LogManager_ctor)
           ELogCategory.Editor).
  - eexists; reflexivity.
  - simpl; tauto.
Defined.

(** ** The singleton's life cycle *)

Section Lifecycle.

Implicit Types (w : World) (lm : LogManager).

Lemma GetRef_GetInstance w : GetRef w = GetInstance w.
Proof. reflexivity. Qed.

Lemma access_GetInstance a w : access a (GetInstance w) = GetInstance w.
Proof. destruct a; simpl; rewrite ?GetRef_GetInstance; apply GetInstance_idem. Qed.

Lemma run_accesses_GetInstance accesses w :
  run_accesses accesses (GetInstance w) = GetInstance w.
Proof.
  induction accesses as [|a accesses IH]; [reflexivity|].
  change (run_accesses (a :: accesses) (GetInstance w)) with
    (run_accesses accesses (access a (GetInstance w))).
  by rewrite access_GetInstance.
Qed.

Lemma world_eq w1 w2 :
  m_instance w1 = m_instance w2 -> cout w1 = cout w2 -> w1 = w2.
Proof. destruct w1, w2; simpl; intros -> ->; reflexivity. Qed.

End Lifecycle.

(** X6. However many times, and through whichever of [GetInstance] and
    [GetRef], the singleton is accessed, the object is constructed at most
    once: any non-empty sequence of accesses leaves the world a single
    [GetInstance] leaves, with the output untouched and an instance that
    was already there kept as it is. *)
Theorem accesses_construct_once
    (a : Access) (accesses : list Access) (w : World) :
  run_accesses (a :: accesses) w = GetInstance w /\
  cout (run_accesses (a :: accesses) w) = cout w /\
  m_instance (run_accesses (a :: accesses) w) =
    Some (match m_instance w with
          | Some lm => lm
          | None => LogManager_ctor
          end).
Proof.
  assert (H : run_accesses (a :: accesses) w = GetInstance w).
  { change (run_accesses (a :: accesses) w) with
      (run_accesses accesses (access a w)).
    destruct a; simpl access; rewrite ?GetRef_GetInstance;
      apply run_accesses_GetInstance. }
  rewrite H. split; [reflexivity|]. split; [apply GetInstance_cout|].
  unfold GetInstance. destruct (m_instance w) eqn:E; [exact E | reflexivity].
Qed.

(** X7. [DestroyInstance] comes back to its caller exactly when there is no
    instance to destroy, and then it has changed nothing; with an instance
    in place it does not return, whatever the state of that instance. *)
Theorem DestroyInstance_returns_iff_null (fuel : nat) (w : World) :
  returned (DestroyInstance fuel w)
    = match m_instance w with
      | None => true
      | Some _ => false
      end /\
  (forall w', DestroyInstance fuel w = Returns w' <->
              m_instance w = None /\ w' = w).
Proof.
  destruct (m_instance w) as [lm|] eqn:E.
  - assert (Hnot : forall w', DestroyInstance fuel w <> Returns w')
      by (intros w'; exact (DestroyInstance_never_returns fuel w lm w' E)).
    split.
    + destruct (DestroyInstance fuel w) as [w'| |] eqn:E'; try reflexivity.
      exfalso. exact (Hnot w' eq_refl).
    + intros w'. split; [intros H; exfalso; exact (Hnot w' H)|].
      intros [H _]; discriminate.
  - rewrite (DestroyInstance_null fuel w E). split; [reflexivity|].
    intros w'. split; [intros [= <-]; auto | intros [_ ->]; reflexivity].
Qed.

(** X8. The first query of a process constructs the registry: on a world
    without an instance either query leaves the freshly constructed
    instance behind, answers enabled (not disabled) on the six categories,
    and throws on every other value. *)
Theorem first_access_query (c : ELogCategory.t) (w : World) :
  m_instance w = None ->
  call_IsCategoryEnabled c w =
    (if decide (0 <= c < ELogCategory.AutoCount) then Ok true
     else out_of_range,
     set_m_instance (Some LogManager_ctor) w) /\
  call_IsCategoryDisabled c w =
    (if decide (0 <= c < ELogCategory.AutoCount) then Ok false
     else out_of_range,
     set_m_instance (Some LogManager_ctor) w).
Proof.
  intros Hnull. destruct (GetInstance_null w Hnull) as [_ Hinst].
  assert (Hget : GetInstance w = set_m_instance (Some LogManager_ctor) w)
    by (unfold GetInstance; by rewrite Hnull).
  unfold call_IsCategoryEnabled, call_IsCategoryDisabled.
  rewrite Hinst, Hget.
  pose proof (LogManager_ctor_lookup c) as Hl.
  case_decide.
  - rewrite (IsCategoryEnabled_lookup _ _ _ Hl).
    rewrite (IsCategoryDisabled_lookup _ _ _ Hl). split; reflexivity.
  - rewrite (IsCategoryEnabled_missing _ _ Hl).
    rewrite (IsCategoryDisabled_missing _ _ Hl). split; reflexivity.
Qed.

Lemma first_access_query_witness :
  m_instance initial_world = None /\
  call_IsCategoryEnabled ELogCategory.Threads initial_world =
    (Ok true, set_m_instance (Some LogManager_ctor) initial_world) /\
  call_IsCategoryDisabled ELogCategory.AutoCount initial_world =
    (out_of_range, set_m_instance (Some LogManager_ctor) initial_world).
Proof.
  split; [reflexivity|]. split.
  - destruct (first_access_query ELogCategory.Threads initial_world)
      as [H _]; [reflexivity|]. exact H.
  - destruct (first_access_query ELogCategory.AutoCount initial_world)
      as [_ H]; [reflexivity|]. exact H.
Defined.

(** ** The front end, beyond the enabled and the disabled case *)

Section FrontEndCases.

Implicit Types (w : World) (args : list Arg) (o : Overload).

Lemma append_cancel_l (s t : string) : s ++ t = s -> t = "".
Proof.
  induction s as [|x s IH]; [exact (fun H => H)|].
  rewrite append_cons. intros [= H]. exact (IH H).
Qed.

Lemma message_line_starts o args :
  exists rest, message_line o args = String ">" rest.
Proof. unfold message_line. destruct (specified_color o); eexists; reflexivity. Qed.

Lemma stamped_line_nonempty calendar o args :
  timestamp_line calendar o ++ message_line o args <> "".
Proof.
  destruct (message_line_starts o args) as [rest ->].
  destruct (timestamp_line calendar o); rewrite ?append_nil_l, ?append_cons;
    discriminate.
Qed.

(** The guard lets the body run on every stored state but [Disabled]. *)
Lemma guarded_not_disabled c body w s :
  category_state w c = Some s ->
  s <> ELogCategoryState.Disabled ->
  guarded c body w = Normal (body (GetInstance w)).
Proof.
  intros H Hs. unfold guarded. rewrite instance_GetInstance.
  rewrite (IsCategoryDisabled_lookup _ _ _ H). by destruct s.
Qed.

Lemma write_args_eq args w :
  write_args args w = mkWorld (m_instance w) (cout w ++ args_text args).
Proof.
  apply world_eq; cbn [m_instance cout];
    [apply write_args_m_instance | apply write_args_cout].
Qed.

Lemma plain_line_eq args w :
  plain_line args w =
    mkWorld (m_instance w) (cout w ++ (">>> " ++ args_text args ++ endl)).
Proof.
  apply world_eq; cbn [m_instance cout];
    [apply plain_line_m_instance | apply plain_line_cout].
Qed.

Lemma colored_line_eq color args w :
  colored_line color args w =
    mkWorld (m_instance w)
      (cout w ++ (">>> " ++ Color_To_Ansi color ++ args_text args
                    ++ UNIX_COLOR_END_TAG ++ endl)).
Proof.
  apply world_eq; cbn [m_instance cout];
    [apply colored_line_m_instance | apply colored_line_cout].
Qed.

Lemma Debug_Log_call_guarded calendar o args w :
  Debug_Log_call calendar o args w
    = guarded (effective_category o) (body_of calendar o args) w.
Proof. destruct o; reflexivity. Qed.

Lemma body_of_eq calendar o args w :
  body_of calendar o args w =
    mkWorld (m_instance w)
      (cout w ++ timestamp_line calendar o ++ message_line o args).
Proof.
  destruct o as [|c|col|c col|col b|c col b]; simpl body_of;
    unfold timestamp_line, message_line; simpl specified_time;
    simpl specified_color;
    rewrite ?plain_line_eq, ?colored_line_eq, ?append_nil_l;
    try reflexivity;
    (apply world_eq; simpl; [by destruct b|]);
    rewrite show_time_cout; destruct b; by rewrite ?append_assoc.
Qed.

(** What a call does on each possible entry of its effective category. *)
Lemma Debug_Log_call_cases calendar o args w :
  Debug_Log_call calendar o args w =
    match category_state w (effective_category o) with
    | None => Terminate
    | Some ELogCategoryState.Disabled => Normal w
    | Some _ =>
        Normal (mkWorld (Some (instance w))
                  (cout w ++ timestamp_line calendar o ++ message_line o args))
    end.
Proof.
  rewrite Debug_Log_call_guarded.
  destruct (category_state w (effective_category o)) as [s|] eqn:E.
  - destruct s.
    + rewrite (guarded_not_disabled _ _ _ _ E) by discriminate.
      by rewrite body_of_eq, GetInstance_instance, GetInstance_cout.
    + by apply guarded_disabled.
    + rewrite (guarded_not_disabled _ _ _ _ E) by discriminate.
      by rewrite body_of_eq, GetInstance_instance, GetInstance_cout.
  - by apply guarded_missing.
Qed.

End FrontEndCases.

(** X9. A call whose effective category has no entry in the registry (the
    sentinel [AutoCount], or any value never inserted) does not return:
    [std::map::at] throws inside the [noexcept] function and
    [std::terminate] is called, whatever the overload and the arguments. *)
Theorem Debug_Log_unpopulated_terminates
    (calendar : string) (o : Overload) (args : list Arg) (w : World) :
  category_state w (effective_category o) = None ->
  Debug_Log_call calendar o args w = Terminate.
Proof. intros H. by rewrite Debug_Log_call_cases, H. Qed.

Lemma Debug_Log_unpopulated_terminates_witness :
  let o := WithCategoryColor ELogCategory.AutoCount EPrintColor.Green in
  category_state initial_world (effective_category o) = None /\
  Debug_Log_call "" o [mkArg "x"] initial_world = Terminate.
Proof.
  split; [vm_compute; reflexivity|].
  apply (Debug_Log_unpopulated_terminates ""
           (WithCategoryColor ELogCategory.AutoCount EPrintColor.Green)
           [mkArg "x"] initial_world).
  vm_compute; reflexivity.
Defined.

(** X10. Disabling is the only way to silence a call: a call returns with
    the world exactly as it found it if and only if its effective category
    is [Disabled] in the registry. *)
Theorem Debug_Log_silent_iff_disabled
    (calendar : string) (o : Overload) (args : list Arg) (w : World) :
  Debug_Log_call calendar o args w = Normal w <->
  category_state w (effective_category o) = Some ELogCategoryState.Disabled.
Proof.
  rewrite Debug_Log_call_cases.
  assert (Hprint :
    Normal (mkWorld (Some (instance w))
              (cout w ++ timestamp_line calendar o ++ message_line o args))
    <> Normal w).
  { intros [= H]. apply (f_equal cout) in H. cbn [cout] in H.
    apply append_cancel_l in H.
    exact (stamped_line_nonempty calendar o args H). }
  destruct (category_state w (effective_category o)) as [[| |]|].
  - split; [intros H; exfalso; exact (Hprint H) | discriminate].
  - split; reflexivity.
  - split; [intros H; exfalso; exact (Hprint H) | discriminate].
  - split; discriminate.
Qed.

(** What a returning call leaves behind. *)
Lemma Debug_Log_call_Normal_inv
    (calendar : string) (o : Overload) (args : list Arg) (w w' : World) :
  Debug_Log_call calendar o args w = Normal w' ->
  m_instance w' = Some (instance w) /\
  (forall c, category_state w' c = category_state w c) /\
  is_prefix (cout w) (cout w').
Proof.
  rewrite Debug_Log_call_cases. intros H.
  assert (Hinst : m_instance w' = Some (instance w) /\
                  is_prefix (cout w) (cout w')).
  { destruct (category_state w (effective_category o)) as [[| |]|] eqn:E;
      try discriminate; injection H as <-.
    - split; [reflexivity | eexists; reflexivity].
    - destruct (category_state_Disabled_exists w _ E) as [lm Hlm].
      destruct (GetInstance_existing w lm Hlm) as [_ ->].
      split; [exact Hlm | exists ""; by rewrite append_empty_r].
    - split; [reflexivity | eexists; reflexivity]. }
  destruct Hinst as [Hinst Hpre]. split; [exact Hinst|]. split; [|exact Hpre].
  intros c. unfold category_state.
  by destruct (GetInstance_existing w' _ Hinst) as [_ ->].
Qed.

(** X11. A call that returns never changes the registry and never takes
    back output: afterwards the instance is the one the call found (or the
    one it constructed on first access), every category has the entry it
    had, and the earlier output is the beginning of the new output. *)
Theorem Debug_Log_preserves_registry
    (calendar : string) (o : Overload) (args : list Arg) (w w' : World) :
  Debug_Log_call calendar o args w = Normal w' ->
  m_instance w' = Some (instance w) /\
  (forall c, category_state w' c = category_state w c) /\
  is_prefix (cout w) (cout w').
Proof. apply Debug_Log_call_Normal_inv. Qed.

Lemma Debug_Log_preserves_registry_witness :
  let w := call_DisableCategory ELogCategory.Error initial_world in
  let w' := mkWorld (m_instance w) (">>> " ++ esc "[1;32m" ++ "ok" ++ esc "[m" ++ endl) in
  Debug_Log_call "" (WithColor EPrintColor.Green) [mkArg "ok"] w = Normal w' /\
  category_state w' ELogCategory.Error = category_state w ELogCategory.Error.
Proof.
  assert (H : Debug_Log_call "" (WithColor EPrintColor.Green) [mkArg "ok"]
                (call_DisableCategory ELogCategory.Error initial_world)
              = Normal
                  (mkWorld
                     (m_instance
                        (call_DisableCategory ELogCategory.Error initial_world))
                     (">>> " ++ esc "[1;32m" ++ "ok" ++ esc "[m" ++ endl)))
    by (vm_compute; reflexivity).
  split; [exact H|].
  exact (proj1 (proj2 (Debug_Log_preserves_registry _ _ _ _ _ H))
           ELogCategory.Error).
Defined.

(** X12. As long as the registry has only been changed through
    [EnableCategory] and [DisableCategory], a call whose effective category
    is one of the six categories always returns: [std::terminate] is out of
    reach for them. *)
Theorem Debug_Log_returns_on_categories
    (calendar : string) (o : Overload) (args : list Arg) (w : World) :
  reachable (instance w) ->
  In (effective_category o) ELogCategory.categories ->
  exists w', Debug_Log_call calendar o args w = Normal w'.
Proof.
  intros Hreach Hc. rewrite Debug_Log_call_cases.
  destruct Hreach as [ops Hops].
  destruct (run_ops_populated ops _ _ (LogManager_ctor_populated _ Hc))
    as [s Hs].
  unfold category_state. rewrite Hops, Hs. destruct s; eexists; reflexivity.
Qed.

Lemma Debug_Log_returns_on_categories_witness :
  let w := call_DisableCategory ELogCategory.Core
             (call_EnableCategory 12 initial_world) in
  reachable (instance w) /\
  In (effective_category Plain) ELogCategory.categories /\
  exists w', Debug_Log_call "" Plain [mkArg "x"] w = Normal w'.
Proof.
  assert (Hreach : reachable
            (instance (call_DisableCategory ELogCategory.Core
                         (call_EnableCategory 12 initial_world)))).
  { exists [OpEnable 12; OpDisable ELogCategory.Core]. reflexivity. }
  split; [exact Hreach|]. split; [simpl; tauto|].
  apply (Debug_Log_returns_on_categories "" Plain [mkArg "x"]
           (call_DisableCategory ELogCategory.Core
              (call_EnableCategory 12 initial_world)) Hreach).
  simpl; tauto.
Defined.

(** X13. The mutators and the logger compose through the singleton, from
    any world: right after [DisableCategory] of its effective category a
    call writes nothing, and right after [EnableCategory] of it a call
    writes its time stamp line (if asked for) and its message line, even
    when the category had no entry or was disabled before. *)
Theorem Debug_Log_after_mutator
    (calendar : string) (o : Overload) (args : list Arg) (w : World) :
  Debug_Log_call calendar o args
      (call_DisableCategory (effective_category o) w)
    = Normal (call_DisableCategory (effective_category o) w) /\
  exists w',
    Debug_Log_call calendar o args
        (call_EnableCategory (effective_category o) w)
      = Normal w' /\
    cout w' = cout w ++ timestamp_line calendar o ++ message_line o args.
Proof.
  split.
  - rewrite Debug_Log_call_cases. unfold category_state.
    rewrite instance_call_DisableCategory. by rewrite DisableCategory_lookup.
  - rewrite Debug_Log_call_cases. unfold category_state.
    rewrite instance_call_EnableCategory. rewrite EnableCategory_lookup.
    eexists. split; [reflexivity|]. cbn [cout].
    unfold call_EnableCategory; cbn [cout set_m_instance].
    by rewrite GetInstance_cout.
Qed.

(** X14. Only the concatenated text of the arguments matters: two argument
    lists with the same concatenation, however it is cut into arguments and
    whatever their types, give the same result in every overload. *)
Theorem Debug_Log_args_text_only
    (calendar : string) (o : Overload) (args1 args2 : list Arg) (w : World) :
  args_text args1 = args_text args2 ->
  Debug_Log_call calendar o args1 w = Debug_Log_call calendar o args2 w.
Proof.
  intros H. rewrite !Debug_Log_call_cases.
  unfold message_line. by rewrite H.
Qed.

Lemma Debug_Log_args_text_only_witness :
  let o := WithColorTime EPrintColor.Blue true in
  args_text [mkArg "level "; mkArg 6; mkArg "9"%char]
    = args_text [mkArg "level 69"] /\
  Debug_Log_call "now" o [mkArg "level "; mkArg 6; mkArg "9"%char]
      initial_world
    = Debug_Log_call "now" o [mkArg "level 69"] initial_world.
Proof.
  split; [vm_compute; reflexivity|].
  apply (Debug_Log_args_text_only "now" (WithColorTime EPrintColor.Blue true)
           [mkArg "level "; mkArg 6; mkArg "9"%char] [mkArg "level 69"]
           initial_world).
  vm_compute; reflexivity.
Defined.

(** X15. The clock is read only on request: unless the call passes [true]
    for [bShowTime], its result is the same at every clock reading. *)
Theorem Debug_Log_clock_independent
    (calendar1 calendar2 : string) (o : Overload) (args : list Arg)
    (w : World) :
  specified_time o <> Some true ->
  Debug_Log_call calendar1 o args w = Debug_Log_call calendar2 o args w.
Proof.
  intros H. rewrite !Debug_Log_call_cases. unfold timestamp_line.
  destruct (specified_time o) as [[|]|]; [congruence | reflexivity..].
Qed.

Lemma Debug_Log_clock_independent_witness :
  let o := WithCategoryColorTime ELogCategory.Core EPrintColor.Red false in
  specified_time o <> Some true /\
  Debug_Log_call "Fri Oct 30 10:00:00 2026" o [mkArg "x"] initial_world
    = Debug_Log_call "Sat Oct 31 11:30:00 2026" o [mkArg "x"] initial_world.
Proof.
  split; [discriminate|].
  apply (Debug_Log_clock_independent "Fri Oct 30 10:00:00 2026"
           "Sat Oct 31 11:30:00 2026"
           (WithCategoryColorTime ELogCategory.Core EPrintColor.Red false)
           [mkArg "x"] initial_world).
  discriminate.
Defined.

(** X16. Among the sixteen enumerators [Color_To_Ansi] confuses exactly one
    pair: two different enumerators get the same escape sequence if and
    only if they are [LightBlue] and [LightYellow]. *)
Theorem Color_To_Ansi_collisions (a b : EPrintColor.t) :
  0 <= a <= 15 ->
  0 <= b <= 15 ->
  (Color_To_Ansi a = Color_To_Ansi b <->
   a = b \/
   (a = EPrintColor.LightBlue /\ b = EPrintColor.LightYellow) \/
   (a = EPrintColor.LightYellow /\ b = EPrintColor.LightBlue)).
Proof.
  intros Ha Hb.
  unfold EPrintColor.LightBlue, EPrintColor.LightYellow.
  assert (Ha' : a = 0 \/ a = 1 \/ a = 2 \/ a = 3 \/ a = 4 \/ a = 5 \/ a = 6 \/
                a = 7 \/ a = 8 \/ a = 9 \/ a = 10 \/ a = 11 \/ a = 12 \/
                a = 13 \/ a = 14 \/ a = 15) by lia.
  assert (Hb' : b = 0 \/ b = 1 \/ b = 2 \/ b = 3 \/ b = 4 \/ b = 5 \/ b = 6 \/
                b = 7 \/ b = 8 \/ b = 9 \/ b = 10 \/ b = 11 \/ b = 12 \/
                b = 13 \/ b = 14 \/ b = 15) by lia.
  clear Ha Hb.
  repeat (destruct Ha' as [-> | Ha']); try subst a;
    repeat (destruct Hb' as [-> | Hb']); try subst b;
    (split; intros H;
     [ first [ lia | exfalso; vm_compute in H; discriminate ]
     | first [ reflexivity | exfalso; lia ] ]).
Qed.

Lemma Color_To_Ansi_collisions_witness :
  0 <= EPrintColor.LightYellow <= 15 /\ 0 <= EPrintColor.LightBlue <= 15 /\
  Color_To_Ansi EPrintColor.LightYellow = Color_To_Ansi EPrintColor.LightBlue.
Proof.
  assert (Ha : 0 <= EPrintColor.LightYellow <= 15)
    by (unfold EPrintColor.LightYellow; lia).
  assert (Hb : 0 <= EPrintColor.LightBlue <= 15)
    by (unfold EPrintColor.LightBlue; lia).
  split; [exact Ha|]. split; [exact Hb|].
  apply (Color_To_Ansi_collisions EPrintColor.LightYellow
           EPrintColor.LightBlue Ha Hb).
  right; right; split; reflexivity.
Defined.

(** ** Runs of calls *)

Lemma line_written_ext (w w' : World) (call : LogCall) :
  (forall c, category_state w' c = category_state w c) ->
  line_written w' call = line_written w call.
Proof. intros H. unfold line_written. by rewrite H. Qed.

Lemma lines_written_ext (w w' : World) (calls : list LogCall) :
  (forall c, category_state w' c = category_state w c) ->
  lines_written w' calls = lines_written w calls.
Proof.
  intros H. induction calls as [|call calls IH]; [reflexivity|].
  simpl. by rewrite IH, (line_written_ext w w' call H).
Qed.

Lemma Debug_Log_call_line (call : LogCall) (w : World) :
  is_Some (category_state w (effective_category (call_overload call))) ->
  exists w',
    Debug_Log_call (call_calendar call) (call_overload call) (call_args call) w
      = Normal w' /\
    cout w' = cout w ++ line_written w call.
Proof.
  intros [s Hs]. rewrite Debug_Log_call_cases. unfold line_written.
  rewrite Hs. destruct s; eexists; (split; [reflexivity|]);
    cbn [cout]; by rewrite ?append_empty_r.
Qed.

(** X17. A run of calls whose effective categories all have entries
    returns; its output is the earlier output followed by the lines of the
    calls in call order, the calls on disabled categories contributing
    nothing; and the registry is at the end what it was at the start. *)
Theorem run_logs_output (calls : list LogCall) (w : World) :
  Forall (fun call =>
            is_Some (category_state w (effective_category (call_overload call))))
         calls ->
  exists w',
    run_logs calls w = Normal w' /\
    cout w' = cout w ++ lines_written w calls /\
    (forall c, category_state w' c = category_state w c).
Proof.
  revert w; induction calls as [|call calls IH]; intros w Hall.
  - exists w. split; [reflexivity|]. split; [|reflexivity].
    simpl. by rewrite append_empty_r.
  - inversion Hall as [|? ? Hcall Hrest]; subst.
    destruct (Debug_Log_call_line call w Hcall) as (w1 & Hrun & Hout).
    destruct (Debug_Log_call_Normal_inv _ _ _ _ _ Hrun) as (_ & Hsame & _).
    destruct (IH w1) as (w' & Hruns & Houts & Hsames).
    { eapply Forall_impl; [exact Hrest|]. intros c0 Hc0. simpl in Hc0 |- *.
      by rewrite Hsame. }
    exists w'. simpl run_logs. rewrite Hrun. split; [exact Hruns|]. split.
    + rewrite Houts, Hout, (lines_written_ext w w1 calls Hsame).
      simpl lines_written. by rewrite append_assoc.
    + intros c. by rewrite Hsames, Hsame.
Qed.

Lemma run_logs_output_witness :
  let w := call_DisableCategory ELogCategory.Editor
             (call_EnableCategory ELogCategory.Default initial_world) in
  let calls :=
    [mkLogCall "Fri Oct 30 10:00:00 2026"
       (WithCategoryColorTime ELogCategory.Default EPrintColor.Red true)
       [mkArg "Loading next level"; mkArg 69];
     mkLogCall "" (WithCategory ELogCategory.Editor) [mkArg "hidden"];
     mkLogCall "" Plain [mkArg "App closing :)"]] in
  Forall (fun call =>
            is_Some (category_state w (effective_category (call_overload call))))
         calls /\
  exists w',
    run_logs calls w = Normal w' /\
    cout w' =
      "Fri Oct 30 10:00:00 2026" ++ endl ++
      ">>> " ++ esc "[1;31m" ++ "Loading next level69" ++ esc "[m" ++ endl ++
      ">>> App closing :)" ++ endl.
Proof.
  set (w := call_DisableCategory ELogCategory.Editor
              (call_EnableCategory ELogCategory.Default initial_world)).
  set (calls :=
    [mkLogCall "Fri Oct 30 10:00:00 2026"
       (WithCategoryColorTime ELogCategory.Default EPrintColor.Red true)
       [mkArg "Loading next level"; mkArg 69];
     mkLogCall "" (WithCategory ELogCategory.Editor) [mkArg "hidden"];
     mkLogCall "" Plain [mkArg "App closing :)"]]).
  assert (Hall : Forall (fun call =>
            is_Some (category_state w (effective_category (call_overload call))))
         calls).
  { repeat constructor; eexists; vm_compute; reflexivity. }
  split; [exact Hall|].
  destruct (run_logs_output calls w Hall) as (w' & Hrun & Hout & _).
  exists w'. split; [exact Hrun|]. rewrite Hout. vm_compute. reflexivity.
Defined.
